(** * A cursor over paginated sources: shallow embedding of [iterator.go]

  The Go package [iter] holds one generic type, [Cursor], driven by three
  closures the caller supplies through [Config].  This development embeds
  [New], [Next], [Get], [Iterate] and [Reset] as state-passing functions
  and proves the properties the specification states about them.

  Layout: the model first (errors, the cursor, a handle-threading variant,
  concrete cursors used as examples), then the theorems. *)

From Stdlib Require Import List Bool Arith Lia.
From Stdlib Require String.
Import ListNotations String.StringSyntax.
Delimit Scope string_scope with string.

Set Implicit Arguments.

(* ================================================================== *)
(** * Go's [error] values and the part of package [errors] the code uses *)
(* ================================================================== *)

Module errors.

(** A non-nil [error].  [errors.New] and [fmt.Errorf] return pointers, so
    two errors are the same value only when they are the same allocation;
    [addr] stands for that pointer.  [wrapError] is what [fmt.Errorf]
    builds for a [%w] verb: it has an [Unwrap] method. *)
Inductive error : Type :=
| errorString (addr : nat) (s : String.string)
| wrapError (addr : nat) (msg : String.string) (err : error).

(** Go's [==] on two non-nil error values. *)
Fixpoint eqb (a b : error) : bool :=
  match a, b with
  | errorString i s, errorString j t => Nat.eqb i j && String.eqb s t
  | wrapError i s x, wrapError j t y =>
      Nat.eqb i j && String.eqb s t && eqb x y
  | _, _ => false
  end.

(** [errors.Is(err, target)] for non-nil arguments: walk the [Unwrap]
    chain of [err], comparing each link with [target]. *)
Fixpoint Is (err target : error) : bool :=
  if eqb err target then true
  else match err with
       | errorString _ _ => false
       | wrapError _ _ inner => Is inner target
       end.

(** [err.Error()]. *)
Definition Error (err : error) : String.string :=
  match err with
  | errorString _ s => s
  | wrapError _ s _ => s
  end.

End errors.

Abbreviation error := errors.error.

(** Go's [error] interface: [None] is [nil]. *)
Definition goerror : Type := option error.

(** [var ErrStop = errors.New("iterator stopped")] *)
Definition ErrStop : error := errors.errorString 0 "iterator stopped"%string.

(** The zero value of a Go type. *)
Class Zero (T : Type) : Type := zero : T.

#[export] Instance Zero_nat : Zero nat := 0.
#[export] Instance Zero_list (A : Type) : Zero (list A) := @nil A.

(* ================================================================== *)
(** * Caller code and the monad the methods run in *)
(* ================================================================== *)

(** A Go closure supplied by the caller.  It may read and change whatever
    it captured (a server, a counter): [World] is all of that.  The cursor
    is not part of it: its fields are unexported, and the caller's
    functions are taken not to call back into the cursor they serve.  A
    closure is a function value that is there to be called, not [nil]. *)
Definition Closure (World A : Type) : Type := World -> A * World.

(** A method with a pointer receiver: it reads and updates the state [S]
    it runs in and hands back an [A]. *)
Definition St (S A : Type) : Type := S -> A * S.

Definition ret {S A : Type} (a : A) : St S A := fun st => (a, st).

Definition bind {S A B : Type} (m : St S A) (k : A -> St S B) : St S B :=
  fun st => let (a, st') := m st in k a st'.

Declare Scope go_scope.
Delimit Scope go_scope with go.
Notation "x <- m ;; k" := (bind m (fun x => k))
  (at level 61, m at next level, right associativity) : go_scope.
Notation "' p <- m ;; k" := (bind m (fun x => let p := x in k))
  (at level 61, p pattern, m at next level, right associativity) : go_scope.
Notation "m ;;; k" := (bind m (fun _ => k))
  (at level 61, right associativity) : go_scope.
Open Scope go_scope.

(** What a run of a loop bounded by fuel comes to. *)
Inductive outcome : Type :=
| OutOfFuel
| Returned (err : goerror).

(* ================================================================== *)
(** * The cursor *)
(* ================================================================== *)

Section Model.

Context {Request Response World : Type}.
Context {zeroRequest : Zero Request} {zeroResponse : Zero Response}.

(** [type Cursor[Request, Response any] struct] *)
Record Cursor : Type := mkCursor {
  response        : Response;
  request         : Request;
  next            : bool;
  hasNext         : Response -> Closure World (Request * bool);
  fetchNext       : Request -> Closure World (Response * goerror);
  getFirstRequest : Closure World Request
}.

(** [type Config[Request, Response any] struct] *)
Record Config : Type := mkConfig {
  HasNext         : Response -> Closure World (Request * bool);
  FetchNext       : Request -> Closure World (Response * goerror);
  GetFirstRequest : Closure World Request
}.

(** [func New(config Config) *Cursor]: the fields the literal leaves out
    take their zero values. *)
Definition New (config : Config) : Cursor :=
  {| response        := zero;
     request         := zero;
     next            := true;
     hasNext         := HasNext config;
     fetchNext       := FetchNext config;
     getFirstRequest := GetFirstRequest config |}.

(** Field assignments [d.response = v], [d.request = v], [d.next = v]. *)
Definition set_response (v : Response) (d : Cursor) : Cursor :=
  {| response := v; request := request d; next := next d;
     hasNext := hasNext d; fetchNext := fetchNext d;
     getFirstRequest := getFirstRequest d |}.

Definition set_request (v : Request) (d : Cursor) : Cursor :=
  {| response := response d; request := v; next := next d;
     hasNext := hasNext d; fetchNext := fetchNext d;
     getFirstRequest := getFirstRequest d |}.

Definition set_next (v : bool) (d : Cursor) : Cursor :=
  {| response := response d; request := request d; next := v;
     hasNext := hasNext d; fetchNext := fetchNext d;
     getFirstRequest := getFirstRequest d |}.

(** ** Calls made by the cursor

    Every call of a caller-supplied function is recorded, oldest first. *)
Inductive event : Type :=
| EvHasNext (r : Response)
| EvFetchNext (rq : Request)
| EvGetFirstRequest
| EvCallback (r : Response).

(** The requests [fetchNext] was called with, and the pages [callback]
    was called with. *)
Fixpoint fetched (l : list event) : list Request :=
  match l with
  | [] => []
  | EvFetchNext rq :: l' => rq :: fetched l'
  | _ :: l' => fetched l'
  end.

Fixpoint delivered (l : list event) : list Response :=
  match l with
  | [] => []
  | EvCallback r :: l' => r :: delivered l'
  | _ :: l' => delivered l'
  end.

(** ** Program state

    The one cursor object behind the pointer receiver [d], the world the
    closures act on, and the calls made so far. *)
Record state : Type := mkState {
  cursor : Cursor;
  world  : World;
  calls  : list event
}.

Definition M (A : Type) : Type := St state A.

(** Read the receiver. *)
Definition self : M Cursor := fun st => (cursor st, st).

(** Update the receiver in place. *)
Definition assign (f : Cursor -> Cursor) : M unit :=
  fun st => (tt, {| cursor := f (cursor st); world := world st;
                    calls := calls st |}).

(** Run a closure on the world, recording the call. *)
Definition call {A : Type} (ev : event) (c : Closure World A) : M A :=
  fun st => let (a, w) := c (world st) in
            (a, {| cursor := cursor st; world := w;
                   calls := calls st ++ [ev] |}).

(** ** The methods *)

(** [func (d *Cursor) Next() bool] *)
Definition Next : M bool :=
  d <- self ;;
  ret (next d).

(** [func (d *Cursor) Get() (Response, error)]

    [d.response, err = d.fetchNext(d.request)] assigns the field before
    [err] is looked at. *)
Definition Get : M (Response * goerror) :=
  d <- self ;;
  if negb (next d) then
    ret (response d, Some ErrStop)
  else
    '(r, err) <- call (EvFetchNext (request d)) (fetchNext d (request d)) ;;
    assign (set_response r) ;;;
    match err with
    | Some e =>
        d <- self ;;
        ret (response d, Some e)
    | None =>
        d <- self ;;
        '(rq, more) <- call (EvHasNext (response d))
                            (hasNext d (response d)) ;;
        assign (set_request rq) ;;;
        assign (set_next more) ;;;
        d <- self ;;
        ret (response d, None)
    end.

(** [func (d *Cursor) Iterate(callback func(response Response) error) error]

    The [for d.Next()] loop need not end (a [hasNext] that always says
    true); [fuel] bounds the number of times its condition is tested. *)
Fixpoint Iterate (fuel : nat) (callback : Response -> Closure World goerror)
  : M outcome :=
  match fuel with
  | O => ret OutOfFuel
  | S fuel' =>
      more <- Next ;;
      if more then
        '(resp, err) <- Get ;;
        match err with
        | Some e =>
            if errors.Is e ErrStop then ret (Returned None)
            else ret (Returned (Some e))
        | None =>
            cerr <- call (EvCallback resp) (callback resp) ;;
            match cerr with
            | Some e =>
                if errors.Is e ErrStop then ret (Returned None)
                else ret (Returned (Some e))
            | None => Iterate fuel' callback
            end
        end
      else
        ret (Returned None)
  end.

(** [func (d *Cursor) Reset()] *)
Definition Reset : M unit :=
  d <- self ;;
  rq <- call EvGetFirstRequest (getFirstRequest d) ;;
  assign (set_request rq) ;;;
  assign (set_next true).

(** A fresh program: the cursor [New] returns, no call made yet. *)
Definition start (config : Config) (w : World) : state :=
  {| cursor := New config; world := w; calls := [] |}.

(** ** Sequences of method calls *)

(** [n] calls of [Get] in a row, with what each returned. *)
Fixpoint Gets (n : nat) : M (list (Response * goerror)) :=
  match n with
  | O => ret []
  | S n' =>
      x <- Get ;;
      xs <- Gets n' ;;
      ret (x :: xs)
  end.

(** One call of a method of the cursor. *)
Inductive invocation : Type :=
| CallNext
| CallGet
| CallIterate (callback : Response -> Closure World goerror)
| CallReset.

Definition is_reset (c : invocation) : bool :=
  match c with CallReset => true | _ => false end.

(** Make the call; [false] when the loop of [Iterate] used up [fuel]. *)
Definition invoke (fuel : nat) (c : invocation) : M bool :=
  match c with
  | CallNext => _ <- Next ;; ret true
  | CallGet => _ <- Get ;; ret true
  | CallIterate callback =>
      o <- Iterate fuel callback ;;
      ret (match o with OutOfFuel => false | Returned _ => true end)
  | CallReset => Reset ;;; ret true
  end.

Fixpoint invoke_all (fuel : nat) (cs : list invocation) : M bool :=
  match cs with
  | [] => ret true
  | c :: cs' =>
      ok <- invoke fuel c ;;
      if ok then invoke_all fuel cs' else ret false
  end.

(** ** Pages served to the driven loop *)

(** The state one round of the loop leaves behind when [fetchNext] gave
    [page] without error, [hasNext] gave [(rq, more)] and [callback] left
    the world at [w]. *)
Definition after_round (st : state) (page : Response) (rq : Request)
  (more : bool) (w : World) : state :=
  {| cursor := set_next more (set_request rq (set_response page (cursor st)));
     world  := w;
     calls  := calls st ++ [EvFetchNext (request (cursor st));
                            EvHasNext page; EvCallback page] |}.

(** [pages_served callback pages st st']: starting in [st], the caller's
    functions serve the non-terminal pages [pages] one after the other:
    each fetch succeeds, [hasNext] says there is more, and [callback]
    returns [nil]; [st'] is the state after the last of them. *)
Inductive pages_served (callback : Response -> Closure World goerror)
  : list Response -> state -> state -> Prop :=
| served_nil : forall st, pages_served callback [] st st
| served_cons : forall st page w1 rq w2 w3 pages st',
    fetchNext (cursor st) (request (cursor st)) (world st)
      = ((page, None), w1) ->
    hasNext (cursor st) page w1 = ((rq, true), w2) ->
    callback page w2 = (None, w3) ->
    pages_served callback pages (after_round st page rq true w3) st' ->
    pages_served callback (page :: pages) st st'.

(** ** What the methods leave alone, and what the loop checks *)

(** The pages [hasNext] was called with. *)
Fixpoint checked (l : list event) : list Response :=
  match l with
  | [] => []
  | EvHasNext r :: l' => r :: checked l'
  | _ :: l' => checked l'
  end.

(** Two cursors hold the same three functions. *)
Definition same_closures (d d' : Cursor) : Prop :=
  hasNext d' = hasNext d /\
  fetchNext d' = fetchNext d /\
  getFirstRequest d' = getFirstRequest d.

End Model.

Arguments Cursor : clear implicits.
Arguments Config : clear implicits.
Arguments event : clear implicits.
Arguments state : clear implicits.
Arguments invocation : clear implicits.

(* ================================================================== *)
(** * The cursor with a cancellation handle *)
(* ================================================================== *)

Module Ctx.

Section Model.

Context {Input Result Handle World : Type}.

(** Modelled from the spec: the cursor of sections 2, 3 and 5, whose
    [fetchNext(Input, cancellation)] takes a cancellation handle.  In
    [iterator.go] neither [fetchNext] nor [Get] nor [Iterate] takes one; the
    methods that do, which the later tests of the repository call as
    [Get(ctx)] and [Iterate(ctx, callback)], are missing from the sources.
    Fields are named as in section 3. *)
Record Cursor : Type := mkCursor {
  lastResult    : Result;
  currentInput  : Input;
  hasMore       : bool;
  hasNext       : Result -> Closure World (Input * bool);
  fetchNext     : Input -> Handle -> Closure World (Result * goerror);
  getFirstInput : Closure World Input
}.

Definition set_lastResult (v : Result) (d : Cursor) : Cursor :=
  {| lastResult := v; currentInput := currentInput d; hasMore := hasMore d;
     hasNext := hasNext d; fetchNext := fetchNext d;
     getFirstInput := getFirstInput d |}.

Definition set_currentInput (v : Input) (d : Cursor) : Cursor :=
  {| lastResult := lastResult d; currentInput := v; hasMore := hasMore d;
     hasNext := hasNext d; fetchNext := fetchNext d;
     getFirstInput := getFirstInput d |}.

Definition set_hasMore (v : bool) (d : Cursor) : Cursor :=
  {| lastResult := lastResult d; currentInput := currentInput d; hasMore := v;
     hasNext := hasNext d; fetchNext := fetchNext d;
     getFirstInput := getFirstInput d |}.

(** Calls of the caller's functions; a fetch is recorded with the handle
    it was given. *)
Inductive event : Type :=
| EvHasNext (r : Result)
| EvFetchNext (input : Input) (ctx : Handle)
| EvGetFirstInput
| EvCallback (r : Result).


Record state : Type := mkState {
  cursor : Cursor;
  world  : World;
  calls  : list event
}.

Definition M (A : Type) : Type := St state A.

Definition self : M Cursor := fun st => (cursor st, st).

Definition assign (f : Cursor -> Cursor) : M unit :=
  fun st => (tt, {| cursor := f (cursor st); world := world st;
                    calls := calls st |}).

Definition call {A : Type} (ev : event) (c : Closure World A) : M A :=
  fun st => let (a, w) := c (world st) in
            (a, {| cursor := cursor st; world := w;
                   calls := calls st ++ [ev] |}).

(** Modelled from the spec: the availability check of section 4.1. *)
Definition Next : M bool :=
  d <- self ;;
  ret (hasMore d).

(** Modelled from the spec: advance-and-fetch of section 4.1 with the
    handle of section 5 forwarded into [fetchNext].  The body is that of
    [Get] in [iterator.go], which has no handle to forward. *)
Definition Get (ctx : Handle) : M (Result * goerror) :=
  d <- self ;;
  if negb (hasMore d) then
    ret (lastResult d, Some ErrStop)
  else
    '(r, err) <- call (EvFetchNext (currentInput d) ctx)
                      (fetchNext d (currentInput d) ctx) ;;
    assign (set_lastResult r) ;;;
    match err with
    | Some e =>
        d <- self ;;
        ret (lastResult d, Some e)
    | None =>
        d <- self ;;
        '(input, more) <- call (EvHasNext (lastResult d))
                               (hasNext d (lastResult d)) ;;
        assign (set_currentInput input) ;;;
        assign (set_hasMore more) ;;;
        d <- self ;;
        ret (lastResult d, None)
    end.

(** Modelled from the spec: driven iteration of section 4.2, the handle
    threaded through to every fetch.  The body is that of [Iterate] in
    [iterator.go]. *)
Fixpoint Iterate (fuel : nat) (ctx : Handle)
  (callback : Result -> Closure World goerror) : M outcome :=
  match fuel with
  | O => ret OutOfFuel
  | S fuel' =>
      more <- Next ;;
      if more then
        '(resp, err) <- Get ctx ;;
        match err with
        | Some e =>
            if errors.Is e ErrStop then ret (Returned None)
            else ret (Returned (Some e))
        | None =>
            cerr <- call (EvCallback resp) (callback resp) ;;
            match cerr with
            | Some e =>
                if errors.Is e ErrStop then ret (Returned None)
                else ret (Returned (Some e))
            | None => Iterate fuel' ctx callback
            end
        end
      else
        ret (Returned None)
  end.

End Model.

Arguments Cursor : clear implicits.
Arguments event : clear implicits.
Arguments state : clear implicits.

End Ctx.

(** ** The handle forgotten

    With the handle fixed and forgotten, a cursor of that kind is a cursor
    of [iterator.go], and its call log is a log of such a cursor. *)
Section Forget.

Context {Input Result Handle World : Type}.

Definition forget_cursor (ctx : Handle)
  (d : Ctx.Cursor Input Result Handle World) : Cursor Input Result World :=
  {| response := Ctx.lastResult d;
     request := Ctx.currentInput d;
     next := Ctx.hasMore d;
     hasNext := Ctx.hasNext d;
     fetchNext := fun input => Ctx.fetchNext d input ctx;
     getFirstRequest := Ctx.getFirstInput d |}.

Definition forget_event (ev : Ctx.event Input Result Handle)
  : event Input Result :=
  match ev with
  | Ctx.EvHasNext r => EvHasNext r
  | Ctx.EvFetchNext input _ => EvFetchNext input
  | Ctx.EvGetFirstInput => EvGetFirstRequest
  | Ctx.EvCallback r => EvCallback r
  end.

Definition forget (ctx : Handle) (st : Ctx.state Input Result Handle World)
  : state Input Result World :=
  {| cursor := forget_cursor ctx (Ctx.cursor st);
     world := Ctx.world st;
     calls := map forget_event (Ctx.calls st) |}.

End Forget.

(* ================================================================== *)
(** * Concrete cursors, after the tests of the package *)
(* ================================================================== *)

Module Example.

(** A record is its ID; a request is the last ID seen; the world is the
    counter [i] the test's callback keeps. *)
Definition Record : Type := nat.

(** The filtering loop of [MockAPIHandler]: append the records above
    [lastSeen], stop when [limit] of them are in. *)
Fixpoint filterRecords (records : list Record) (lastSeen limit : nat)
  (filteredRecords : list Record) : list Record :=
  match records with
  | [] => filteredRecords
  | record :: rest =>
      if lastSeen <? record then
        let filteredRecords' := filteredRecords ++ [record] in
        if length filteredRecords' =? limit then filteredRecords'
        else filterRecords rest lastSeen limit filteredRecords'
      else filterRecords rest lastSeen limit filteredRecords
  end.

(** [MockAPIHandler(recordsCount)] answering [{lastSeen, limit}]. *)
Definition MockAPIHandler (recordsCount lastSeen limit : nat) : list Record :=
  filterRecords (seq 1 recordsCount) lastSeen limit [].

(** [HasNext] of [simpleIterator]: the last record's ID when there is one. *)
Definition lastID (response : list Record) : nat * bool :=
  match rev response with
  | id :: _ => (id, true)
  | [] => (0, false)
  end.

(** [simpleIterator(mockServer)] over a server of [recordsCount] records. *)
Definition simpleIterator (recordsCount : nat) : Config nat (list Record) nat :=
  {| HasNext := fun response w => (lastID response, w);
     FetchNext := fun request w =>
       ((MockAPIHandler recordsCount request 2, None), w);
     GetFirstRequest := fun w => (0, w) |}.

(** The callback of [TestCursorIterator_CallbackIteration]: on its [i]-th
    call it returns the [i]-th scripted error and counts the call. *)
Definition scripted (returnError : list goerror)
  : list Record -> Closure nat goerror :=
  fun _ i => (nth i returnError None, S i).

Definition nope : error := errors.errorString 1 "nope"%string.

(** [brokenIterator()]: every fetch fails. *)
Definition brokenIterator : Config nat (list Record) nat :=
  {| HasNext := fun _ w => ((0, true), w);
     FetchNext := fun _ w => (([], Some nope), w);
     GetFirstRequest := fun w => (1, w) |}.

(** A source that marks its last page by sending it short: a page with
    fewer than two records has no successor. *)
Definition shortPage (recordsCount : nat) : Config nat (list Record) nat :=
  {| HasNext := fun response w =>
       ((fst (lastID response), length response =? 2), w);
     FetchNext := fun request w =>
       ((MockAPIHandler recordsCount request 2, None), w);
     GetFirstRequest := fun w => (0, w) |}.

Definition status500 : error :=
  errors.errorString 2 "unexpected status code: 500"%string.

(** A server that answers the first request and fails from then on; as in
    [simpleIterator], a failed fetch returns [nil, err]. *)
Definition flaky : Config nat (list Record) nat :=
  {| HasNext := fun response w => (lastID response, w);
     FetchNext := fun request w =>
       if request =? 0 then (([1; 2], None), w)
       else (([], Some status500), w);
     GetFirstRequest := fun w => (0, w) |}.

(** A callback error that wraps the stop sentinel,
    [fmt.Errorf("done: %w", iter.ErrStop)]. *)
Definition wrappedStop : error :=
  errors.wrapError 3 "done: iterator stopped"%string ErrStop.

(** A source that reports the end of its data through the error of the
    fetch, returning the stop sentinel wrapped. *)
Definition stopOnFetch : Config nat (list Record) nat :=
  {| HasNext := fun response w => (lastID response, w);
     FetchNext := fun request w =>
       if request =? 0 then (([1; 2], None), w)
       else (([], Some wrappedStop), w);
     GetFirstRequest := fun w => (0, w) |}.



(** The state [shortPage] over five records is in after three calls of
    [Get], which fetch its pages [[1; 2]], [[3; 4]] and [[5]]. *)
Definition exhausted : state nat (list Record) nat :=
  snd (Gets 3 (start (shortPage 5) 0)).

(** The state [flaky] is in after its first page. *)
Definition served_once : state nat (list Record) nat :=
  snd (Get (start flaky 0)).

(** The state after one turn of the driven loop on a fresh cursor whose
    first page is [[1; 2]]. *)
Definition one_page_in (config : Config nat (list Record) nat)
  : state nat (list Record) nat :=
  after_round (start config 0) [1; 2] 2 true 1.

(** The state of [simpleIterator] over five records after the loop has
    handed its three non-empty pages to a callback. *)
Definition three_pages_in : state nat (list Record) nat :=
  after_round (after_round (one_page_in (simpleIterator 5)) [3; 4] 4 true 2)
    [5] 5 true 3.


(** A source with no last page: page [k] holds the record [k + 1], and
    there is always more. *)
Definition endless : Config nat (list Record) nat :=
  {| HasNext := fun response w => ((fst (lastID response), true), w);
     FetchNext := fun request w => (([S request], None), w);
     GetFirstRequest := fun w => (0, w) |}.

End Example.

(* ================================================================== *)
(** * Properties of package [errors] *)
(* ================================================================== *)

Lemma errors_eqb_refl (e : error) : errors.eqb e e = true.
Proof.
  induction e as [i s | i s e IH]; simpl.
  - now rewrite Nat.eqb_refl, String.eqb_refl.
  - now rewrite Nat.eqb_refl, String.eqb_refl, IH.
Qed.

Lemma errors_eqb_eq (a b : error) : errors.eqb a b = true <-> a = b.
Proof.
  split; [| intros ->; apply errors_eqb_refl].
  revert b; induction a as [i s | i s a IH]; intros [j t | j t b]; simpl;
    try discriminate.
  - intros H; apply andb_true_iff in H as [Hi Hs].
    apply Nat.eqb_eq in Hi; apply String.eqb_eq in Hs; congruence.
  - intros H; apply andb_true_iff in H as [H Ha].
    apply andb_true_iff in H as [Hi Hs].
    apply Nat.eqb_eq in Hi; apply String.eqb_eq in Hs.
    apply IH in Ha; congruence.
Qed.

Lemma errors_Is_refl (e : error) : errors.Is e e = true.
Proof. destruct e; simpl; now rewrite ?Nat.eqb_refl, ?String.eqb_refl, ?errors_eqb_refl. Qed.

Lemma ErrStop_Is_ErrStop : errors.Is ErrStop ErrStop = true.
Proof. reflexivity. Qed.

(* ================================================================== *)
(** * Properties of the cursor *)
(* ================================================================== *)

Lemma bind_run {S A B : Type} (m : St S A) (k : A -> St S B)
  (st st' : S) (a : A) :
  m st = (a, st') -> bind m k st = k a st'.
Proof. intros H. unfold bind. now rewrite H. Qed.

Arguments bind_run {S A B} m k {st st' a} _.

(** Unfold one method call down to the closures it runs. *)
Ltac run_method :=
  unfold Get, Next, Reset, bind, self, assign, call, ret; simpl.

Section Properties.

Context {Request Response World : Type}.
Context {zeroRequest : Zero Request} {zeroResponse : Zero Response}.

Local Abbreviation Cursor := (Cursor Request Response World).
Local Abbreviation Config := (Config Request Response World).
Local Abbreviation state := (state Request Response World).
Local Abbreviation event := (event Request Response).
Local Abbreviation invocation := (invocation Response World).
Local Abbreviation Callback := (Response -> Closure World goerror).

(** ** The call log *)

Lemma fetched_app (l l' : list event) :
  fetched (l ++ l') = fetched l ++ fetched l'.
Proof.
  induction l as [| [r | rq | | r] l IH]; simpl; auto.
  now rewrite IH.
Qed.

Lemma delivered_app (l l' : list event) :
  delivered (l ++ l') = delivered l ++ delivered l'.
Proof.
  induction l as [| [r | rq | | r] l IH]; simpl; auto.
  now rewrite IH.
Qed.

(** ** One step of [Get], case by case *)

Lemma Get_exhausted (st : state) :
  next (cursor st) = false ->
  Get st = ((response (cursor st), Some ErrStop), st).
Proof.
  intros Hn. run_method. now rewrite Hn.
Qed.

Lemma Get_failed (st : state) (v : Response) (e : error) (w1 : World) :
  next (cursor st) = true ->
  fetchNext (cursor st) (request (cursor st)) (world st) = ((v, Some e), w1) ->
  Get st = ((v, Some e),
            {| cursor := set_response v (cursor st);
               world  := w1;
               calls  := calls st ++ [EvFetchNext (request (cursor st))] |}).
Proof.
  intros Hn Hf. run_method. rewrite Hn. simpl. now rewrite Hf.
Qed.

Lemma Get_fetched (st : state) (r : Response) (w1 : World)
  (rq : Request) (more : bool) (w2 : World) :
  next (cursor st) = true ->
  fetchNext (cursor st) (request (cursor st)) (world st) = ((r, None), w1) ->
  hasNext (cursor st) r w1 = ((rq, more), w2) ->
  Get st = ((r, None),
            {| cursor := set_next more (set_request rq
                           (set_response r (cursor st)));
               world  := w2;
               calls  := calls st ++ [EvFetchNext (request (cursor st));
                                      EvHasNext r] |}).
Proof.
  intros Hn Hf Hh. run_method. rewrite Hn. simpl. rewrite Hf. simpl.
  rewrite Hh. simpl.
  now rewrite <- app_assoc.
Qed.

(** ** One turn of the loop of [Iterate], case by case *)

Lemma Next_run (st : state) : Next st = (next (cursor st), st).
Proof. reflexivity. Qed.

Lemma Iterate_exhausted (fuel : nat) (callback : Callback) (st : state) :
  next (cursor st) = false ->
  Iterate (S fuel) callback st = (Returned None, st).
Proof.
  intros Hn. cbn [Iterate]. rewrite (bind_run _ _ (Next_run st)).
  now rewrite Hn.
Qed.

Lemma Iterate_Get_error (fuel : nat) (callback : Callback) (st st1 : state)
  (v : Response) (e : error) :
  next (cursor st) = true ->
  Get st = ((v, Some e), st1) ->
  Iterate (S fuel) callback st
  = (Returned (if errors.Is e ErrStop then None else Some e), st1).
Proof.
  intros Hn HG. cbn [Iterate]. rewrite (bind_run _ _ (Next_run st)), Hn.
  rewrite (bind_run _ _ HG).
  now destruct (errors.Is e ErrStop).
Qed.

Lemma Iterate_callback (fuel : nat) (callback : Callback) (st st1 : state)
  (r : Response) (cerr : goerror) (w : World) :
  next (cursor st) = true ->
  Get st = ((r, None), st1) ->
  callback r (world st1) = (cerr, w) ->
  Iterate (S fuel) callback st
  = match cerr with
    | Some e => ret (Returned (if errors.Is e ErrStop then None else Some e))
    | None => Iterate fuel callback
    end {| cursor := cursor st1; world := w;
           calls := calls st1 ++ [EvCallback r] |}.
Proof.
  intros Hn HG Hc. cbn [Iterate]. rewrite (bind_run _ _ (Next_run st)), Hn.
  rewrite (bind_run _ _ HG). cbn beta iota.
  erewrite bind_run by (unfold call; rewrite Hc; reflexivity).
  destruct cerr as [e |]; [| reflexivity].
  now destruct (errors.Is e ErrStop).
Qed.

(** ** Advance-and-fetch *)

(** C1.  On a cursor that has more, when [fetchNext] of the current request
    succeeds with [r], [Get] stores [r] in [response], sets [request] and
    [next] to the pair [hasNext] gives for [r], and returns [r] with a nil
    error.  The two closures are each called once, in that order. *)
Theorem Get_success_stores_and_advances (st : state) (r : Response)
  (w1 : World) (rq : Request) (more : bool) (w2 : World) :
  next (cursor st) = true ->
  fetchNext (cursor st) (request (cursor st)) (world st) = ((r, None), w1) ->
  hasNext (cursor st) r w1 = ((rq, more), w2) ->
  exists st',
    Get st = ((r, None), st') /\
    response (cursor st') = r /\
    request (cursor st') = rq /\
    next (cursor st') = more /\
    world st' = w2 /\
    calls st' = calls st ++ [EvFetchNext (request (cursor st)); EvHasNext r].
Proof.
  intros Hn Hf Hh. eexists. split.
  - apply (Get_fetched st Hn Hf Hh).
  - simpl. repeat split; reflexivity.
Qed.

(** C2.  On a cursor that has more, when [fetchNext] of the current request
    fails with [e], [Get] returns [e] itself, and [next], [request] and the
    three closures are as before; so the next [Get] calls [fetchNext] with
    the same request again. *)
Theorem Get_fetch_error_keeps_position (st : state) (v : Response)
  (e : error) (w1 : World) :
  next (cursor st) = true ->
  fetchNext (cursor st) (request (cursor st)) (world st) = ((v, Some e), w1) ->
  exists st',
    Get st = ((v, Some e), st') /\
    next (cursor st') = next (cursor st) /\
    request (cursor st') = request (cursor st) /\
    fetchNext (cursor st') = fetchNext (cursor st) /\
    hasNext (cursor st') = hasNext (cursor st) /\
    getFirstRequest (cursor st') = getFirstRequest (cursor st) /\
    fetched (calls st') = fetched (calls st) ++ [request (cursor st)] /\
    fetched (calls (snd (Get st')))
    = fetched (calls st) ++ [request (cursor st); request (cursor st)].
Proof.
  intros Hn Hf. eexists. split; [apply (Get_failed st Hn Hf) |].
  simpl. repeat split.
  - now rewrite fetched_app.
  - set (st' := {| cursor := set_response v (cursor st); world := w1;
                   calls := calls st ++ [EvFetchNext (request (cursor st))] |}).
    assert (Hn' : next (cursor st') = true) by exact Hn.
    destruct (fetchNext (cursor st') (request (cursor st')) (world st'))
      as [[v' [e' |]] w2] eqn:Hf'.
    + rewrite (Get_failed st' Hn' Hf'). simpl.
      now rewrite !fetched_app, <- app_assoc.
    + destruct (hasNext (cursor st') v' w2) as [[rq more] w3] eqn:Hh'.
      rewrite (Get_fetched st' Hn' Hf' Hh'). simpl.
      now rewrite !fetched_app, <- app_assoc.
Qed.

(** What [Get] does on a cursor whose [next] is false: every call returns
    [ErrStop] together with whatever [response] holds, calls no closure and
    changes nothing; [n] calls in a row return the same pair [n] times and
    leave the state as it was. *)
Theorem Get_exhausted_returns_stored_response (st : state) (n : nat) :
  next (cursor st) = false ->
  Gets n st = (repeat (response (cursor st), Some ErrStop) n, st).
Proof.
  intros Hn. induction n as [| n IH]; [reflexivity |].
  cbn [Gets repeat].
  rewrite (bind_run _ _ (Get_exhausted st Hn)).
  now rewrite (bind_run _ _ IH).
Qed.

(** [response] changes in no other place than the fetch of [Get]. *)
Lemma response_kept_without_fetch (st : state) :
  response (cursor (snd (Next st))) = response (cursor st) /\
  response (cursor (snd (Reset st))) = response (cursor st) /\
  (next (cursor st) = false ->
   response (cursor (snd (Get st))) = response (cursor st)).
Proof.
  repeat split.
  - run_method. now destruct (getFirstRequest (cursor st) (world st)).
  - intros Hn. now rewrite (Get_exhausted st Hn).
Qed.

(** C4, as the code has it.  [response] is written by the fetch inside
    [Get] and nowhere else, and by a failed fetch as well as by a
    successful one: [Get] assigns what [fetchNext] returns before it looks
    at the error.  When [fetchNext] fails with [(v, e)], the stored
    [response] becomes [v], the value that came with the error, whatever
    was stored before, and [Get] returns that [v] with [e].  [Next],
    [Reset] and [Get] on an exhausted cursor leave [response] alone. *)
Theorem Get_fetch_error_overwrites_response (st : state) (v : Response)
  (e : error) (w1 : World) :
  next (cursor st) = true ->
  fetchNext (cursor st) (request (cursor st)) (world st) = ((v, Some e), w1) ->
  Get st = ((v, Some e),
            {| cursor := set_response v (cursor st);
               world  := w1;
               calls  := calls st ++ [EvFetchNext (request (cursor st))] |})
  /\ response (cursor (snd (Get st))) = v
  /\ forall st0 : state,
       response (cursor (snd (Next st0))) = response (cursor st0) /\
       response (cursor (snd (Reset st0))) = response (cursor st0) /\
       (next (cursor st0) = false ->
        response (cursor (snd (Get st0))) = response (cursor st0)).
Proof.
  intros Hn Hf. rewrite (Get_failed st Hn Hf).
  split; [reflexivity |]. split; [reflexivity |].
  apply response_kept_without_fetch.
Qed.

(** ** Reset and construction *)

(** C7.  In any state, [Reset] sets [request] to what [getFirstRequest]
    returns and [next] to true; it calls [getFirstRequest] and nothing
    else, so no fetch, and leaves [response] alone.  [Next] is true right
    after [Reset], and right after [New], before any call was made. *)
Theorem Reset_restarts_without_fetching (st : state) (config : Config)
  (w : World) :
  let first := getFirstRequest (cursor st) (world st) in
  Reset st = (tt, {| cursor := set_next true (set_request (fst first)
                                                          (cursor st));
                     world  := snd first;
                     calls  := calls st ++ [EvGetFirstRequest] |})
  /\ request (cursor (snd (Reset st))) = fst first
  /\ next (cursor (snd (Reset st))) = true
  /\ response (cursor (snd (Reset st))) = response (cursor st)
  /\ fetched (calls (snd (Reset st))) = fetched (calls st)
  /\ fst (Next (snd (Reset st))) = true
  /\ Next (start config w) = (true, start config w)
  /\ calls (start config w) = [].
Proof.
  intros first. subst first.
  assert (HR : Reset st
               = (tt, {| cursor := set_next true
                            (set_request
                               (fst (getFirstRequest (cursor st) (world st)))
                               (cursor st));
                         world := snd (getFirstRequest (cursor st) (world st));
                         calls := calls st ++ [EvGetFirstRequest] |})).
  { run_method. now destruct (getFirstRequest (cursor st) (world st)). }
  rewrite HR. simpl. repeat split.
  rewrite fetched_app. simpl. apply app_nil_r.
Qed.

(** ** Exhaustion is stable *)

Lemma invoke_exhausted (fuel : nat) (c : invocation) (st : state) :
  next (cursor st) = false ->
  is_reset c = false ->
  invoke (S fuel) c st = (true, st).
Proof.
  intros Hn Hc. destruct c as [| | callback |]; try discriminate;
    unfold invoke.
  - now rewrite (bind_run _ _ (Next_run st)).
  - now rewrite (bind_run _ _ (Get_exhausted st Hn)).
  - now rewrite (bind_run _ _ (Iterate_exhausted fuel callback st Hn)).
Qed.

(** C8.  Once [next] is false it stays false under any sequence of [Next],
    [Get] and [Iterate] calls: every such call returns (the loop of
    [Iterate] included) and leaves the whole state as it was; a [Reset]
    then sets [next] to true. *)
Theorem next_false_until_Reset (fuel : nat) (cs : list invocation)
  (st : state) :
  next (cursor st) = false ->
  forallb (fun c => negb (is_reset c)) cs = true ->
  invoke_all (S fuel) cs st = (true, st)
  /\ next (cursor (snd (invoke_all (S fuel) cs st))) = false
  /\ next (cursor (snd (invoke_all (S fuel) (cs ++ [CallReset]) st))) = true.
Proof.
  intros Hn Hcs.
  assert (H : invoke_all (S fuel) cs st = (true, st)).
  { induction cs as [| c cs IH]; [reflexivity |].
    simpl in Hcs. apply andb_true_iff in Hcs as [Hc Hcs].
    apply negb_true_iff in Hc.
    cbn [invoke_all].
    rewrite (bind_run _ _ (invoke_exhausted fuel c st Hn Hc)).
    now apply IH. }
  rewrite H. repeat split; [exact Hn |].
  clear H. induction cs as [| c cs IH].
  - simpl. run_method.
    now destruct (getFirstRequest (cursor st) (world st)).
  - simpl in Hcs. apply andb_true_iff in Hcs as [Hc Hcs].
    apply negb_true_iff in Hc.
    cbn [invoke_all app].
    rewrite (bind_run _ _ (invoke_exhausted fuel c st Hn Hc)).
    now apply IH.
Qed.

(** ** Driven iteration *)

(** One whole turn of the loop: fetch, continuation check, callback. *)
Lemma Iterate_round (fuel : nat) (callback : Callback) (st : state)
  (page : Response) (w1 : World) (rq : Request) (more : bool) (w2 : World)
  (cerr : goerror) (w3 : World) :
  next (cursor st) = true ->
  fetchNext (cursor st) (request (cursor st)) (world st)
    = ((page, None), w1) ->
  hasNext (cursor st) page w1 = ((rq, more), w2) ->
  callback page w2 = (cerr, w3) ->
  Iterate (S fuel) callback st
  = match cerr with
    | Some e => ret (Returned (if errors.Is e ErrStop then None else Some e))
    | None => Iterate fuel callback
    end (after_round st page rq more w3).
Proof.
  intros Hn Hf Hh Hc.
  rewrite (Iterate_callback fuel callback st Hn (Get_fetched st Hn Hf Hh) Hc).
  unfold after_round. simpl. now rewrite <- app_assoc.
Qed.

(** The loop goes through the pages served, one turn each. *)
Lemma Iterate_pages_served (callback : Callback) (pages : list Response)
  (st st1 : state) :
  next (cursor st) = true ->
  pages_served callback pages st st1 ->
  next (cursor st1) = true /\
  delivered (calls st1) = delivered (calls st) ++ pages /\
  forall fuel,
    Iterate (length pages + fuel) callback st = Iterate fuel callback st1.
Proof.
  intros Hn Hs. induction Hs as [st | st page w1 rq w2 w3 pages st' Hf Hh Hc Hs IH].
  - repeat split; [exact Hn | now rewrite app_nil_r].
  - destruct (IH eq_refl) as (Hn' & Hd & Hrun). repeat split.
    + exact Hn'.
    + rewrite Hd. unfold after_round. simpl.
      rewrite delivered_app. simpl. now rewrite <- app_assoc.
    + intros fuel. cbn [length Nat.add].
      rewrite (Iterate_round (length pages + fuel) callback st
                 Hn Hf Hh Hc).
      apply Hrun.
Qed.

(** C5.  When the caller's functions serve [N] non-terminal pages and then
    a terminal one ([hasNext] false), no fetch failing and the callback
    returning nil each time, [Iterate] returns nil, having called the
    callback [N + 1] times: once per page in order, the terminal page
    last.  The loop ends by finding [next] false after the callback has
    had the terminal page; [N + 2] tests of its condition are enough. *)
Theorem Iterate_delivers_every_page (callback : Callback)
  (pages : list Response) (st st1 : state) (last : Response)
  (w1 : World) (rq : Request) (w2 w3 : World) (fuel : nat) :
  next (cursor st) = true ->
  pages_served callback pages st st1 ->
  fetchNext (cursor st1) (request (cursor st1)) (world st1)
    = ((last, None), w1) ->
  hasNext (cursor st1) last w1 = ((rq, false), w2) ->
  callback last w2 = (None, w3) ->
  length pages + 2 <= fuel ->
  exists st',
    Iterate fuel callback st = (Returned None, st') /\
    st' = after_round st1 last rq false w3 /\
    delivered (calls st') = delivered (calls st) ++ pages ++ [last] /\
    length (delivered (calls st'))
    = length (delivered (calls st)) + (length pages + 1) /\
    next (cursor st') = false.
Proof.
  intros Hn Hs Hf Hh Hc Hfuel.
  destruct (Iterate_pages_served Hn Hs) as (Hn1 & Hd & Hrun).
  exists (after_round st1 last rq false w3).
  assert (Hdel : delivered (calls (after_round st1 last rq false w3))
                 = delivered (calls st) ++ pages ++ [last]).
  { unfold after_round. simpl. rewrite delivered_app, Hd. simpl.
    now rewrite <- app_assoc. }
  repeat split.
  - replace fuel with (length pages + S (S (fuel - length pages - 2)))
      by lia.
    rewrite Hrun.
    rewrite (Iterate_round _ callback st1 Hn1 Hf Hh Hc).
    now apply Iterate_exhausted.
  - exact Hdel.
  - rewrite Hdel, !length_app. simpl. lia.
Qed.

(** C6, as the code has it.  When the callback returns nil on its first
    [K - 1] calls and the error [e] on call [K], the fetches up to there
    succeeding, [Iterate] has called the callback exactly [K] times when
    it returns, and it returns nil if [errors.Is(e, ErrStop)] holds, that
    is if [e] is the stop sentinel or an error that wraps it, and [e]
    itself otherwise.  [K] tests of the loop condition are enough. *)
Theorem Iterate_stops_at_callback_error (callback : Callback)
  (pages : list Response) (st st1 : state) (page : Response)
  (w1 : World) (rq : Request) (more : bool) (w2 : World) (e : error)
  (w3 : World) (fuel : nat) :
  next (cursor st) = true ->
  pages_served callback pages st st1 ->
  fetchNext (cursor st1) (request (cursor st1)) (world st1)
    = ((page, None), w1) ->
  hasNext (cursor st1) page w1 = ((rq, more), w2) ->
  callback page w2 = (Some e, w3) ->
  length pages + 1 <= fuel ->
  exists err st',
    Iterate fuel callback st = (Returned err, st') /\
    err = (if errors.Is e ErrStop then None else Some e) /\
    (e = ErrStop -> err = None) /\
    (errors.Is e ErrStop = false -> err = Some e) /\
    delivered (calls st') = delivered (calls st) ++ pages ++ [page] /\
    length (delivered (calls st'))
    = length (delivered (calls st)) + (length pages + 1).
Proof.
  intros Hn Hs Hf Hh Hc Hfuel.
  destruct (Iterate_pages_served Hn Hs) as (Hn1 & Hd & Hrun).
  exists (if errors.Is e ErrStop then None else Some e),
         (after_round st1 page rq more w3).
  assert (Hdel : delivered (calls (after_round st1 page rq more w3))
                 = delivered (calls st) ++ pages ++ [page]).
  { unfold after_round. simpl. rewrite delivered_app, Hd. simpl.
    now rewrite <- app_assoc. }
  repeat split.
  - replace fuel with (length pages + S (fuel - length pages - 1))
      by lia.
    rewrite Hrun.
    now rewrite (Iterate_round _ callback st1 Hn1 Hf Hh Hc).
  - intros ->. reflexivity.
  - intros ->. reflexivity.
  - exact Hdel.
  - rewrite Hdel, !length_app. simpl. lia.
Qed.

(** C10.  When a fetch made by [Iterate] fails with an error [e] for which
    [errors.Is(e, ErrStop)] holds, [Iterate] returns nil, not [e]: the
    caller of [Iterate] does not see the fetch error, and the callback is
    not called for that fetch.  This holds at the first fetch as well as
    after any number of pages. *)
Theorem Iterate_swallows_fetch_error_matching_ErrStop (callback : Callback)
  (pages : list Response) (st st1 : state) (v : Response) (e : error)
  (w1 : World) (fuel : nat) :
  next (cursor st) = true ->
  pages_served callback pages st st1 ->
  fetchNext (cursor st1) (request (cursor st1)) (world st1)
    = ((v, Some e), w1) ->
  errors.Is e ErrStop = true ->
  length pages + 1 <= fuel ->
  exists st',
    Iterate fuel callback st = (Returned None, st') /\
    delivered (calls st') = delivered (calls st) ++ pages /\
    next (cursor st') = true.
Proof.
  intros Hn Hs Hf HIs Hfuel.
  destruct (Iterate_pages_served Hn Hs) as (Hn1 & Hd & Hrun).
  eexists. repeat split.
  - replace fuel with (length pages + S (fuel - length pages - 1))
      by lia.
    rewrite Hrun.
    rewrite (Iterate_Get_error _ callback st1 Hn1 (Get_failed st1 Hn1 Hf)).
    now rewrite HIs.
  - simpl. rewrite delivered_app, Hd. simpl. apply app_nil_r.
  - exact Hn1.
Qed.

(** A fetch error that does not match the sentinel comes out of [Iterate]
    as it is. *)
Lemma Iterate_propagates_fetch_error (callback : Callback)
  (pages : list Response) (st st1 : state) (v : Response) (e : error)
  (w1 : World) (fuel : nat) :
  next (cursor st) = true ->
  pages_served callback pages st st1 ->
  fetchNext (cursor st1) (request (cursor st1)) (world st1)
    = ((v, Some e), w1) ->
  errors.Is e ErrStop = false ->
  length pages + 1 <= fuel ->
  fst (Iterate fuel callback st) = Returned (Some e).
Proof.
  intros Hn Hs Hf HIs Hfuel.
  destruct (Iterate_pages_served Hn Hs) as (Hn1 & Hd & Hrun).
  replace fuel with (length pages + S (fuel - length pages - 1))
    by lia.
  rewrite Hrun.
  rewrite (Iterate_Get_error _ callback st1 Hn1 (Get_failed st1 Hn1 Hf)).
  now rewrite HIs.
Qed.

End Properties.

(* ================================================================== *)
(** * Properties of the cursor with a cancellation handle *)
(* ================================================================== *)

Ltac run_ctx_method :=
  unfold Ctx.Get, Ctx.Next, bind, Ctx.self, Ctx.assign, Ctx.call, ret; simpl.

Section CtxProperties.

Context {Input Result Handle World : Type}.

Local Abbreviation cstate := (Ctx.state Input Result Handle World).
Local Abbreviation cevent := (Ctx.event Input Result Handle).
Local Abbreviation Callback := (Result -> Closure World goerror).






(** With the handle forgotten, [Get] with a handle is [Get] of
    [iterator.go]: same return values, same state, same calls. *)
Lemma Get_forget (ctx : Handle) (st : cstate) :
  Get (forget ctx st)
  = (fst (Ctx.Get ctx st), forget ctx (snd (Ctx.Get ctx st))).
Proof.
  run_ctx_method. run_method.
  destruct (Ctx.hasMore (Ctx.cursor st)); simpl; [| reflexivity].
  destruct (Ctx.fetchNext (Ctx.cursor st) (Ctx.currentInput (Ctx.cursor st))
              ctx (Ctx.world st)) as [[v [e |]] w1]; simpl.
  - unfold forget. simpl. now rewrite map_app.
  - destruct (Ctx.hasNext (Ctx.cursor st) v w1) as [[input more] w2]; simpl.
    unfold forget. simpl. now rewrite !map_app.
Qed.

End CtxProperties.

(* ================================================================== *)
(** * The theorems at work on the cursors of the tests *)
(* ================================================================== *)

Section Instances.

Import Example.

Local Abbreviation state0 := (state nat (list Record) nat).

(** The first [Get] on [simpleIterator] over five records. *)
Lemma Get_success_witness :
  exists st' : state0,
    Get (start (simpleIterator 5) 0) = (([1; 2], None), st') /\
    response (cursor st') = [1; 2] /\
    request (cursor st') = 2 /\
    next (cursor st') = true.
Proof.
  destruct (@Get_success_stores_and_advances _ _ _
              (start (simpleIterator 5) 0) [1; 2] 0 2 true 0)
    as (st' & HG & Hr & Hq & Hn & _); [reflexivity | reflexivity | reflexivity |].
  exists st'. repeat split; assumption.
Defined.

(** [Get] on [brokenIterator], as in [TestErrors]: the error is ["nope"]
    and the retry asks for the same request. *)
Lemma Get_fetch_error_witness :
  exists st' : state0,
    Get (start brokenIterator 0) = (([], Some nope), st') /\
    next (cursor st') = true /\
    request (cursor st') = 0 /\
    fetched (calls (snd (Get st'))) = [0; 0].
Proof.
  destruct (@Get_fetch_error_keeps_position _ _ _
              (start brokenIterator 0) [] nope 0)
    as (st' & HG & Hn & Hq & _ & _ & _ & _ & Hretry);
    [reflexivity | reflexivity |].
  exists st'. repeat split; assumption.
Defined.

(** C3.  [Get] on an exhausted cursor, run on [shortPage] over five
    records after its pages [[1; 2]], [[3; 4]] and [[5]]: [next] is false
    and [Get] returns [ErrStop], makes no call and changes nothing, but
    the value that comes with [ErrStop] is the stale page [[5]], not the
    zero value of the response type that the test of the package asks for
    ("calling Get on deplated iterator should return zero value
    response"). *)
Lemma Get_exhausted_zero_value_counterexample :
  next (cursor exhausted) = false /\
  Get exhausted = (([5], Some ErrStop), exhausted) /\
  fst (Get exhausted) <> (zero, Some ErrStop).
Proof.
  split; [reflexivity |]. split; [reflexivity |]. discriminate.
Qed.

Lemma Get_exhausted_witness :
  Gets 2 exhausted = ([([5], Some ErrStop); ([5], Some ErrStop)], exhausted).
Proof.
  apply (@Get_exhausted_returns_stored_response _ _ _ exhausted 2).
  reflexivity.
Defined.

(** C4 as stated fails: with [[1; 2]] stored, the fetch that fails with
    status 500 leaves the empty response it returned in [response]. *)
Lemma failed_fetch_keeps_response_counterexample :
  response (cursor served_once) = [1; 2] /\
  next (cursor served_once) = true /\
  fst (Get served_once) = ([], Some status500) /\
  response (cursor (snd (Get served_once))) = [] /\
  response (cursor (snd (Get served_once))) <> response (cursor served_once).
Proof.
  do 4 (split; [reflexivity |]). discriminate.
Qed.

Lemma Get_fetch_error_overwrites_witness :
  response (cursor (snd (Get served_once))) = [].
Proof.
  destruct (@Get_fetch_error_overwrites_response _ _ _
              served_once [] status500 0) as (_ & Hr & _);
    [reflexivity | reflexivity |].
  exact Hr.
Defined.

(** An exhausted cursor stays so through a mix of calls. *)
Lemma next_false_witness :
  invoke_all 1 [CallGet; CallNext; CallIterate (scripted []); CallGet]
    exhausted = (true, exhausted).
Proof.
  apply (@next_false_until_Reset _ _ _ 0
           [CallGet; CallNext; CallIterate (scripted []); CallGet]
           exhausted); reflexivity.
Defined.

(** The three non-terminal pages of [simpleIterator] over five records. *)
Lemma simpleIterator_pages :
  pages_served (scripted []) [[1; 2]; [3; 4]; [5]]
    (start (simpleIterator 5) 0) three_pages_in.
Proof.
  repeat (eapply served_cons; [reflexivity | reflexivity | reflexivity |]).
  apply served_nil.
Defined.

(** "Full iteration" of [TestCursorIterator_CallbackIteration]: four
    callbacks, the empty page last, no error. *)
Lemma Iterate_full_iteration_witness :
  exists st' : state0,
    Iterate 5 (scripted []) (start (simpleIterator 5) 0)
    = (Returned None, st') /\
    delivered (calls st') = [[1; 2]; [3; 4]; [5]; []] /\
    next (cursor st') = false.
Proof.
  destruct (@Iterate_delivers_every_page _ _ _ (scripted [])
              [[1; 2]; [3; 4]; [5]] (start (simpleIterator 5) 0)
              three_pages_in [] 3 0 3 4 5)
    as (st' & HI & _ & Hd & _ & Hn);
    [reflexivity | exact simpleIterator_pages | reflexivity | reflexivity
    | reflexivity | simpl; lia |].
  exists st'. repeat split; assumption.
Defined.

(** A callback that accepts the first page and fails on the second: two
    callbacks, and its error comes out of [Iterate]. *)
Lemma Iterate_callback_error_witness :
  exists st' : state0,
    Iterate 2 (scripted [None; Some nope]) (start (simpleIterator 5) 0)
    = (Returned (Some nope), st') /\
    delivered (calls st') = [[1; 2]; [3; 4]].
Proof.
  destruct (@Iterate_stops_at_callback_error _ _ _
              (scripted [None; Some nope]) [[1; 2]]
              (start (simpleIterator 5) 0) (one_page_in (simpleIterator 5))
              [3; 4] 1 4 true 1 nope 2 2)
    as (err & st' & HI & He & _ & _ & Hd & _);
    [reflexivity
    | eapply served_cons; [reflexivity | reflexivity | reflexivity
                          | apply served_nil]
    | reflexivity | reflexivity | reflexivity | simpl; lia |].
  exists st'. rewrite HI, He. split; [reflexivity | exact Hd].
Defined.

(** A fetch that fails with the wrapped sentinel after one page: [Iterate]
    returns nil. *)
Lemma Iterate_swallows_witness :
  exists st' : state0,
    Iterate 2 (scripted []) (start stopOnFetch 0) = (Returned None, st') /\
    delivered (calls st') = [[1; 2]].
Proof.
  destruct (@Iterate_swallows_fetch_error_matching_ErrStop _ _ _
              (scripted []) [[1; 2]] (start stopOnFetch 0)
              (one_page_in stopOnFetch) [] wrappedStop 1 2)
    as (st' & HI & Hd & _);
    [reflexivity
    | eapply served_cons; [reflexivity | reflexivity | reflexivity
                          | apply served_nil]
    | reflexivity | reflexivity | simpl; lia |].
  exists st'. split; assumption.
Defined.


(** ** The scenarios of the tests, run *)

(** Manual iteration: [Next] and [Get] until [Next] is false; the pages,
    flattened, are the five records. *)
Example manual_iteration_collects_all_records :
  let run := Gets 4 (snd (Reset (start (simpleIterator 5) 0))) in
  concat (map fst (fst run)) = [1; 2; 3; 4; 5] /\
  map snd (fst run) = [None; None; None; None] /\
  fst (Next (snd run)) = false /\
  fst (Get (snd run)) = ([], Some ErrStop).
Proof. repeat split. Qed.

(** "Early exit": the callback returns [ErrStop] on its first call. *)
Example early_exit_returns_nil :
  let run := Iterate 5 (scripted [Some ErrStop])
               (snd (Reset (start (simpleIterator 5) 0))) in
  fst run = Returned None /\ delivered (calls (snd run)) = [[1; 2]].
Proof. split; reflexivity. Qed.

(** C6 as stated fails: the callback's first non-nil return value, on its
    first call, is [wrappedStop], which is not the stop sentinel; [Iterate]
    calls the callback once and returns nil, not that value. *)
Lemma Iterate_wrapped_stop_counterexample :
  let callback := scripted [Some wrappedStop] in
  let run := Iterate 5 callback (start (simpleIterator 5) 0) in
  wrappedStop <> ErrStop /\
  fst (callback [1; 2] 0) = Some wrappedStop /\
  delivered (calls (snd run)) = [[1; 2]] /\
  fst run = Returned None /\
  fst run <> Returned (Some wrappedStop).
Proof.
  split; [discriminate |]. do 3 (split; [reflexivity |]). discriminate.
Qed.

(** A callback error that wraps [ErrStop] ends the loop with nil as well:
    [errors.Is] follows the chain. *)
Example wrapped_stop_returns_nil :
  let run := Iterate 5 (scripted [Some wrappedStop])
               (start (simpleIterator 5) 0) in
  fst run = Returned None /\ delivered (calls (snd run)) = [[1; 2]].
Proof. split; reflexivity. Qed.

(** [TestErrors]: [Get] and [Iterate] on [brokenIterator] return ["nope"],
    and so does [Get] after a [Reset]. *)
Example broken_iterator_reports_nope :
  let st := start brokenIterator 0 in
  snd (fst (Get st)) = Some nope /\
  fst (Iterate 1 (scripted []) st) = Returned (Some nope) /\
  snd (fst (Get (snd (Reset (snd (Get st)))))) = Some nope.
Proof. repeat split. Qed.

End Instances.

(* ================================================================== *)
(** * Further properties of the cursor *)
(* ================================================================== *)

Section Further.

Context {Request Response World : Type}.
Context {zeroRequest : Zero Request} {zeroResponse : Zero Response}.

Local Abbreviation Cursor := (Cursor Request Response World).
Local Abbreviation Config := (Config Request Response World).
Local Abbreviation state := (state Request Response World).
Local Abbreviation event := (event Request Response).
Local Abbreviation invocation := (invocation Response World).
Local Abbreviation Callback := (Response -> Closure World goerror).

Lemma checked_app (l l' : list event) :
  checked (l ++ l') = checked l ++ checked l'.
Proof.
  induction l as [| [r | rq | | r] l IH]; simpl; auto.
  now rewrite IH.
Qed.

(** ** The first request *)

(** X1.  [New] does not call [getFirstRequest]: on a cursor fresh from
    [New], the first [Get] calls [fetchNext] with the zero value of the
    request type, whatever [GetFirstRequest] would return, and
    [getFirstRequest] is not called at all. *)
Theorem first_Get_after_New_fetches_zero_request (config : Config)
  (w : World) :
  request (New config) = zero /\
  fetched (calls (snd (Get (start config w)))) = [zero] /\
  ~ In EvGetFirstRequest (calls (snd (Get (start config w)))).
Proof.
  split; [reflexivity |].
  run_method.
  destruct (FetchNext config zero w) as [[r [e |]] w1]; simpl.
  - split; [reflexivity |]. intros [H | []]. discriminate.
  - destruct (HasNext config r w1) as [[rq more] w2]; simpl.
    split; [reflexivity |]. intros [H | [H | []]]; discriminate.
Qed.

(** X2.  In any state, exhausted or not, a [Get] that follows a [Reset]
    calls [fetchNext] with the request [getFirstRequest] returned, in the
    world [getFirstRequest] left. *)
Theorem Get_after_Reset_fetches_first_request (st : state) :
  let first := getFirstRequest (cursor st) (world st) in
  let fetch := fetchNext (cursor st) (fst first) (snd first) in
  fetched (calls (snd (Get (snd (Reset st)))))
  = fetched (calls st) ++ [fst first] /\
  fst (Get (snd (Reset st))) = fst fetch.
Proof.
  intros first fetch. subst first fetch. run_method.
  destruct (getFirstRequest (cursor st) (world st)) as [rq w1]; simpl.
  destruct (fetchNext (cursor st) rq w1) as [[r [e |]] w2]; simpl.
  - rewrite !fetched_app. simpl. now rewrite app_nil_r.
  - destruct (hasNext (cursor st) r w2) as [[rq' more] w3]; simpl.
    rewrite !fetched_app. simpl. now rewrite !app_nil_r.
Qed.

(** ** The three functions are never replaced *)

Lemma same_closures_refl (d : Cursor) : same_closures d d.
Proof. repeat split. Qed.

Lemma same_closures_trans (d1 d2 d3 : Cursor) :
  same_closures d1 d2 -> same_closures d2 d3 -> same_closures d1 d3.
Proof.
  intros (H1 & H2 & H3) (H4 & H5 & H6). repeat split; congruence.
Qed.

Lemma Get_same_closures (st : state) :
  same_closures (cursor st) (cursor (snd (Get st))).
Proof.
  run_method. destruct (next (cursor st)); simpl; [| repeat split].
  destruct (fetchNext (cursor st) (request (cursor st)) (world st))
    as [[r [e |]] w1]; simpl; [repeat split |].
  destruct (hasNext (cursor st) r w1) as [[rq more] w2]; simpl.
  repeat split.
Qed.

Lemma Reset_same_closures (st : state) :
  same_closures (cursor st) (cursor (snd (Reset st))).
Proof.
  run_method. destruct (getFirstRequest (cursor st) (world st)); simpl.
  repeat split.
Qed.

Lemma Iterate_same_closures (fuel : nat) (callback : Callback) (st : state) :
  same_closures (cursor st) (cursor (snd (Iterate fuel callback st))).
Proof.
  revert st. induction fuel as [| fuel IH]; intros st;
    [apply same_closures_refl |].
  destruct (next (cursor st)) eqn:Hn.
  - pose proof (Get_same_closures st) as HG.
    destruct (Get st) as [[r [e |]] st1] eqn:HGet; simpl in HG.
    + now rewrite (Iterate_Get_error fuel callback st Hn HGet).
    + destruct (callback r (world st1)) as [cerr w] eqn:Hc.
      rewrite (Iterate_callback fuel callback st Hn HGet Hc).
      destruct cerr as [e |]; [exact HG |].
      eapply same_closures_trans; [exact HG |].
      match goal with |- context [Iterate fuel callback ?s] =>
        apply (IH s) end.
  - rewrite (Iterate_exhausted fuel callback st Hn).
    apply same_closures_refl.
Qed.

Lemma invoke_all_same_closures (fuel : nat) (cs : list invocation)
  (st : state) :
  same_closures (cursor st) (cursor (snd (invoke_all fuel cs st))).
Proof.
  revert st. induction cs as [| c cs IH]; intros st;
    [apply same_closures_refl |].
  cbn [invoke_all]. unfold bind at 1.
  assert (Hc : same_closures (cursor st) (cursor (snd (invoke fuel c st)))).
  { destruct c as [| | callback |]; unfold invoke, bind.
    - rewrite Next_run. apply same_closures_refl.
    - pose proof (Get_same_closures st) as H.
      now destruct (Get st) as [x st1].
    - pose proof (Iterate_same_closures fuel callback st) as H.
      now destruct (Iterate fuel callback st) as [x st1].
    - pose proof (Reset_same_closures st) as H.
      now destruct (Reset st) as [x st1]. }
  destruct (invoke fuel c st) as [[|] st1]; simpl in Hc.
  - eapply same_closures_trans; [exact Hc | apply IH].
  - exact Hc.
Qed.

(** X3.  No method replaces [hasNext], [fetchNext] or [getFirstRequest]:
    after any sequence of [Next], [Get], [Iterate] and [Reset] calls, run
    with any bound on the loops, the cursor holds the three functions it
    was built with. *)
Theorem closures_never_change (fuel : nat) (cs : list invocation)
  (st : state) :
  same_closures (cursor st) (cursor (snd (invoke_all fuel cs st))).
Proof. apply invoke_all_same_closures. Qed.

(** ** More on [Get] *)

Lemma Gets_exhausted (st : state) (n : nat) :
  next (cursor st) = false ->
  Gets n st = (repeat (response (cursor st), Some ErrStop) n, st).
Proof.
  intros Hn. induction n as [| n IH]; [reflexivity |].
  cbn [Gets repeat].
  rewrite (bind_run _ _ (Get_exhausted st Hn)).
  now rewrite (bind_run _ _ IH).
Qed.

(** In a state with [next] true, [Get] calls [fetchNext] with the current
    request, whatever comes of it. *)
Lemma Get_fetches_current_request (st : state) :
  next (cursor st) = true ->
  fetched (calls (snd (Get st)))
  = fetched (calls st) ++ [request (cursor st)].
Proof.
  intros Hn.
  destruct (fetchNext (cursor st) (request (cursor st)) (world st))
    as [[v [e |]] w1] eqn:Hf.
  - rewrite (Get_failed st Hn Hf). simpl. now rewrite fetched_app.
  - destruct (hasNext (cursor st) v w1) as [[rq more] w2] eqn:Hh.
    rewrite (Get_fetched st Hn Hf Hh). simpl. now rewrite fetched_app.
Qed.

(** X4.  The page for which [hasNext] says there is no more is the page
    every later [Get] hands back: the [Get] that fetched it returns it with
    a nil error, and each of the [n] calls after that returns the same page
    with [ErrStop], with no further fetch. *)
Theorem terminal_page_is_repeated_after_exhaustion (st : state)
  (r : Response) (w1 : World) (rq : Request) (w2 : World) (n : nat) :
  next (cursor st) = true ->
  fetchNext (cursor st) (request (cursor st)) (world st) = ((r, None), w1) ->
  hasNext (cursor st) r w1 = ((rq, false), w2) ->
  fst (Gets (S n) st) = (r, None) :: repeat (r, Some ErrStop) n /\
  fetched (calls (snd (Gets (S n) st)))
  = fetched (calls st) ++ [request (cursor st)].
Proof.
  intros Hn Hf Hh. cbn [Gets].
  rewrite (bind_run _ _ (Get_fetched st Hn Hf Hh)).
  erewrite bind_run by (apply Gets_exhausted; reflexivity).
  simpl. split; [reflexivity |]. now rewrite fetched_app.
Qed.

(** ** More on [Iterate] *)

(** X5.  [Iterate] never returns the stop sentinel: whatever the bound, the
    callback and the state, a non-nil error it returns does not match
    [ErrStop]. *)
Theorem Iterate_never_returns_ErrStop (fuel : nat) (callback : Callback)
  (st : state) (e : error) :
  fst (Iterate fuel callback st) = Returned (Some e) ->
  errors.Is e ErrStop = false.
Proof.
  revert st. induction fuel as [| fuel IH]; intros st; [discriminate |].
  destruct (next (cursor st)) eqn:Hn.
  - destruct (Get st) as [[r [e' |]] st1] eqn:HGet.
    + rewrite (Iterate_Get_error fuel callback st Hn HGet). simpl.
      destruct (errors.Is e' ErrStop) eqn:HIs; [discriminate |].
      now intros [= <-].
    + destruct (callback r (world st1)) as [cerr w] eqn:Hc.
      rewrite (Iterate_callback fuel callback st Hn HGet Hc).
      destruct cerr as [e' |]; [| apply IH].
      unfold ret. simpl.
      destruct (errors.Is e' ErrStop) eqn:HIs; [discriminate |].
      now intros [= <-].
  - now rewrite (Iterate_exhausted fuel callback st Hn).
Qed.

(** X6.  A fetch error that does not match the sentinel ends [Iterate] at
    once with that error: the callback is not called for the failed fetch,
    and the cursor is where it was before the fetch, with [next] true and
    the same request, so that the [Get] (or the [Iterate]) that follows
    fetches with that request again. *)
Theorem Iterate_fetch_error_leaves_cursor_in_place (callback : Callback)
  (pages : list Response) (st st1 : state) (v : Response) (e : error)
  (w1 : World) (fuel : nat) :
  next (cursor st) = true ->
  pages_served callback pages st st1 ->
  fetchNext (cursor st1) (request (cursor st1)) (world st1)
    = ((v, Some e), w1) ->
  errors.Is e ErrStop = false ->
  length pages + 1 <= fuel ->
  exists st',
    Iterate fuel callback st = (Returned (Some e), st') /\
    delivered (calls st') = delivered (calls st) ++ pages /\
    next (cursor st') = true /\
    request (cursor st') = request (cursor st1) /\
    fetched (calls (snd (Get st')))
    = fetched (calls st1) ++ [request (cursor st1); request (cursor st1)].
Proof.
  intros Hn Hs Hf HIs Hfuel.
  destruct (Iterate_pages_served Hn Hs) as (Hn1 & Hd & Hrun).
  eexists. split; [| split; [| split; [| split]]].
  - replace fuel with (length pages + S (fuel - length pages - 1)) by lia.
    rewrite Hrun.
    rewrite (Iterate_Get_error _ callback st1 Hn1 (Get_failed st1 Hn1 Hf)).
    now rewrite HIs.
  - simpl. rewrite delivered_app, Hd. simpl. apply app_nil_r.
  - exact Hn1.
  - reflexivity.
  - rewrite Get_fetches_current_request by exact Hn1.
    simpl. rewrite fetched_app. simpl. now rewrite <- app_assoc.
Qed.

(** X7.  When the callback ends the loop on a page, that page is consumed:
    the cursor has already taken the request and the flag [hasNext] gave
    for it.  If [hasNext] said there is no more, the cursor is exhausted
    and the next [Get] returns the page with [ErrStop]; otherwise the next
    [Get] fetches with the request that follows the page, so the page is
    not delivered twice. *)
Theorem Iterate_stopped_by_callback_has_consumed_page (callback : Callback)
  (pages : list Response) (st st1 : state) (page : Response)
  (w1 : World) (rq : Request) (more : bool) (w2 : World) (e : error)
  (w3 : World) (fuel : nat) :
  next (cursor st) = true ->
  pages_served callback pages st st1 ->
  fetchNext (cursor st1) (request (cursor st1)) (world st1)
    = ((page, None), w1) ->
  hasNext (cursor st1) page w1 = ((rq, more), w2) ->
  callback page w2 = (Some e, w3) ->
  length pages + 1 <= fuel ->
  let st' := snd (Iterate fuel callback st) in
  st' = after_round st1 page rq more w3 /\
  request (cursor st') = rq /\
  next (cursor st') = more /\
  (more = false -> Get st' = ((page, Some ErrStop), st')) /\
  (more = true ->
   fetched (calls (snd (Get st'))) = fetched (calls st') ++ [rq]).
Proof.
  intros Hn Hs Hf Hh Hc Hfuel st'.
  destruct (Iterate_pages_served Hn Hs) as (Hn1 & Hd & Hrun).
  assert (Hst : st' = after_round st1 page rq more w3).
  { subst st'.
    replace fuel with (length pages + S (fuel - length pages - 1)) by lia.
    rewrite Hrun.
    now rewrite (Iterate_round _ callback st1 Hn1 Hf Hh Hc). }
  rewrite Hst. repeat split.
  - intros ->. now apply Get_exhausted.
  - intros ->. now apply Get_fetches_current_request.
Qed.

(** The calls a [Get] makes inside the loop: the fetch, and the
    continuation check when the fetch succeeded. *)
Lemma Get_calls_in_loop (st st1 : state) (r : Response) (err : goerror) :
  next (cursor st) = true ->
  Get st = ((r, err), st1) ->
  calls st1 = calls st
              ++ EvFetchNext (request (cursor st))
                 :: match err with
                    | None => [EvHasNext r]
                    | Some _ => []
                    end.
Proof.
  intros Hn HG.
  destruct (fetchNext (cursor st) (request (cursor st)) (world st))
    as [[v [e |]] w1] eqn:Hf.
  - rewrite (Get_failed st Hn Hf) in HG. now inversion HG.
  - destruct (hasNext (cursor st) v w1) as [[rq more] w2] eqn:Hh.
    rewrite (Get_fetched st Hn Hf Hh) in HG. now inversion HG.
Qed.

(** X8.  In any run of [Iterate], finished or cut by the bound, the pages
    handed to the callback are exactly the pages handed to [hasNext], in
    the same order: every page that was fetched without error reaches the
    callback once, and nothing else does.  The fetches are as many as the
    callbacks, or one more (a last fetch that failed). *)
Theorem Iterate_delivers_what_it_checks (fuel : nat) (callback : Callback)
  (st : state) :
  exists new,
    calls (snd (Iterate fuel callback st)) = calls st ++ new /\
    delivered new = checked new /\
    (length (fetched new) = length (delivered new) \/
     length (fetched new) = S (length (delivered new))).
Proof.
  revert st. induction fuel as [| fuel IH]; intros st.
  - exists []. simpl. rewrite app_nil_r. auto.
  - destruct (next (cursor st)) eqn:Hn.
    + destruct (Get st) as [[r [e |]] st1] eqn:HGet.
      * rewrite (Iterate_Get_error fuel callback st Hn HGet).
        exists [EvFetchNext (request (cursor st))]. simpl.
        rewrite (Get_calls_in_loop st Hn HGet). auto.
      * destruct (callback r (world st1)) as [cerr w] eqn:Hc.
        rewrite (Iterate_callback fuel callback st Hn HGet Hc).
        pose proof (Get_calls_in_loop st Hn HGet) as Hcalls.
        destruct cerr as [e |].
        -- exists [EvFetchNext (request (cursor st)); EvHasNext r;
                   EvCallback r].
           unfold ret. simpl. rewrite Hcalls, <- app_assoc. auto.
        -- match goal with |- context [Iterate fuel callback ?s] =>
             destruct (IH s) as (new & Hnew & Hd & Hlen) end.
           exists ([EvFetchNext (request (cursor st)); EvHasNext r;
                    EvCallback r] ++ new).
           rewrite Hnew. simpl. rewrite Hcalls, <- !app_assoc. simpl.
           split; [reflexivity |]. split; [now rewrite Hd |].
           destruct Hlen as [-> | ->]; auto.
    + rewrite (Iterate_exhausted fuel callback st Hn).
      exists []. simpl. rewrite app_nil_r. auto.
Qed.

(** The loop cannot end while the pages keep coming. *)
Lemma Iterate_endless (callback : Callback)
  (fN : Request -> Closure World (Response * goerror))
  (hN : Response -> Closure World (Request * bool)) :
  (forall rq w, snd (fst (fN rq w)) = None) ->
  (forall r w, snd (fst (hN r w)) = true) ->
  (forall r w, fst (callback r w) = None) ->
  forall (fuel : nat) (st : state),
    fetchNext (cursor st) = fN ->
    hasNext (cursor st) = hN ->
    next (cursor st) = true ->
    fst (Iterate fuel callback st) = OutOfFuel /\
    length (delivered (calls (snd (Iterate fuel callback st))))
    = length (delivered (calls st)) + fuel.
Proof.
  intros HfN HhN Hcb fuel. induction fuel as [| fuel IH];
    intros st Hf Hh Hn.
  - simpl. split; [reflexivity | lia].
  - destruct (fN (request (cursor st)) (world st)) as [[page err] w1] eqn:E1.
    pose proof (HfN (request (cursor st)) (world st)) as H1.
    rewrite E1 in H1. simpl in H1. subst err.
    destruct (hN page w1) as [[rq more] w2] eqn:E2.
    pose proof (HhN page w1) as H2. rewrite E2 in H2. simpl in H2. subst more.
    destruct (callback page w2) as [cerr w3] eqn:E3.
    pose proof (Hcb page w2) as H3. rewrite E3 in H3. simpl in H3. subst cerr.
    rewrite <- Hf in E1. rewrite <- Hh in E2.
    rewrite (Iterate_round fuel callback st Hn E1 E2 E3).
    destruct (IH (after_round st page rq true w3) Hf Hh eq_refl) as (Ho & Hl).
    split; [exact Ho |].
    rewrite Hl. unfold after_round. simpl.
    rewrite delivered_app, length_app. simpl. lia.
Qed.

(** X9.  [Iterate] returns only if the source ends or something fails: when
    no fetch ever fails, [hasNext] always says there is more and the
    callback always returns nil, [Iterate] started on a cursor with [next]
    true has not returned after any number of turns of its loop, and has
    called the callback once per turn. *)
Theorem Iterate_does_not_return_while_pages_keep_coming
  (callback : Callback) (st : state) (fuel : nat) :
  next (cursor st) = true ->
  (forall rq w, snd (fst (fetchNext (cursor st) rq w)) = None) ->
  (forall r w, snd (fst (hasNext (cursor st) r w)) = true) ->
  (forall r w, fst (callback r w) = None) ->
  fst (Iterate fuel callback st) = OutOfFuel /\
  length (delivered (calls (snd (Iterate fuel callback st))))
  = length (delivered (calls st)) + fuel.
Proof.
  intros Hn Hf Hh Hc.
  now apply (Iterate_endless callback Hf Hh Hc).
Qed.

End Further.

(* ================================================================== *)
(** * The mock server of the tests and the cursor over it *)
(* ================================================================== *)

Section TestServer.

Import Example.

Local Abbreviation state0 := (state nat (list Record) nat).

(** ** The handler *)

(** The loop of the handler: as long as fewer than [limit] records are in,
    it takes the first records above [lastSeen] up to [limit] in all; once
    [limit] is passed (and with [limit] zero from the start) its test
    [len(filteredRecords) == limit] cannot fire again and it takes every
    record above [lastSeen]. *)
Lemma filterRecords_spec (records : list Record) (lastSeen limit : nat) :
  forall filteredRecords : list Record,
    (length filteredRecords < limit ->
     filterRecords records lastSeen limit filteredRecords
     = filteredRecords
       ++ firstn (limit - length filteredRecords)
            (filter (fun id => lastSeen <? id) records)) /\
    (limit <= length filteredRecords ->
     filterRecords records lastSeen limit filteredRecords
     = filteredRecords ++ filter (fun id => lastSeen <? id) records).
Proof.
  induction records as [| record rest IH]; intros acc.
  - simpl. rewrite firstn_nil, app_nil_r. now split.
  - simpl. destruct (lastSeen <? record) eqn:Hlt.
    + split; intros Hlen.
      * rewrite length_app. simpl.
        destruct (length acc + 1 =? limit) eqn:Heq.
        -- apply Nat.eqb_eq in Heq.
           replace (limit - length acc) with 1 by lia. reflexivity.
        -- apply Nat.eqb_neq in Heq.
           destruct (IH (acc ++ [record])) as [IH1 _].
           rewrite IH1 by (rewrite length_app; simpl; lia).
           rewrite length_app. simpl. rewrite <- app_assoc. simpl.
           replace (limit - length acc)
             with (S (limit - (length acc + 1))) by lia.
           reflexivity.
      * rewrite length_app. simpl.
        destruct (length acc + 1 =? limit) eqn:Heq;
          [apply Nat.eqb_eq in Heq; lia |].
        destruct (IH (acc ++ [record])) as [_ IH2].
        rewrite IH2 by (rewrite length_app; simpl; lia).
        now rewrite <- app_assoc.
    + destruct (IH acc) as [IH1 IH2]. split; assumption.
Qed.

Lemma filter_above_seq (lastSeen len start : nat) :
  filter (fun id => lastSeen <? id) (seq start len)
  = seq (Nat.max start (S lastSeen))
        (start + len - Nat.max start (S lastSeen)).
Proof.
  revert start. induction len as [| len IH]; intros start.
  - simpl. replace (start + 0 - Nat.max start (S lastSeen)) with 0 by lia.
    reflexivity.
  - simpl. rewrite IH. destruct (lastSeen <? start) eqn:Hlt.
    + apply Nat.ltb_lt in Hlt.
      replace (Nat.max (S start) (S lastSeen)) with (S start) by lia.
      replace (Nat.max start (S lastSeen)) with start by lia.
      replace (S start + len - S start) with len by lia.
      replace (start + S len - start) with (S len) by lia.
      reflexivity.
    + apply Nat.ltb_ge in Hlt.
      replace (Nat.max (S start) (S lastSeen)) with (S lastSeen) by lia.
      replace (Nat.max start (S lastSeen)) with (S lastSeen) by lia.
      f_equal. lia.
Qed.

Lemma firstn_of_seq (n start len : nat) :
  firstn n (seq start len) = seq start (Nat.min n len).
Proof.
  revert start len. induction n as [| n IH]; intros start [| len];
    simpl; try reflexivity.
  now rewrite IH.
Qed.

Lemma MockAPIHandler_seq (recordsCount lastSeen limit : nat) :
  MockAPIHandler recordsCount lastSeen limit
  = seq (S lastSeen)
        (if limit =? 0 then recordsCount - lastSeen
         else Nat.min limit (recordsCount - lastSeen)).
Proof.
  unfold MockAPIHandler.
  destruct (filterRecords_spec (seq 1 recordsCount) lastSeen limit [])
    as [Hpos Hzero].
  destruct (limit =? 0) eqn:Hl.
  - apply Nat.eqb_eq in Hl. rewrite Hzero by (simpl; lia). simpl.
    rewrite filter_above_seq. f_equal; lia.
  - apply Nat.eqb_neq in Hl. rewrite Hpos by (simpl; lia). simpl.
    rewrite filter_above_seq, Nat.sub_0_r, firstn_of_seq. f_equal; lia.
Qed.

(** X10.  What the mock server answers: of its records [1 .. recordsCount]
    those after [lastSeen], in order, [limit] of them at most; and with a
    [limit] of zero all of them, because the handler tests the limit only
    after it has appended a record. *)
Theorem MockAPIHandler_answers_next_records
  (recordsCount lastSeen limit : nat) :
  MockAPIHandler recordsCount lastSeen limit
  = seq (S lastSeen)
        (if limit =? 0 then recordsCount - lastSeen
         else Nat.min limit (recordsCount - lastSeen)).
Proof. apply MockAPIHandler_seq. Qed.

(** ** The cursor of [simpleIterator] over the handler *)

Lemma lastID_seq (a k : nat) : lastID (seq (S a) (S k)) = (S a + k, true).
Proof.
  unfold lastID. rewrite seq_S, rev_app_distr. reflexivity.
Qed.

(** One [Get] of [simpleIterator] over [n] records, [a] of them seen. *)
Lemma simpleIterator_Get (n a : nat) (st : state0) :
  hasNext (cursor st) = HasNext (simpleIterator n) ->
  fetchNext (cursor st) = FetchNext (simpleIterator n) ->
  request (cursor st) = a ->
  next (cursor st) = true ->
  let page := seq (S a) (Nat.min 2 (n - a)) in
  fetchNext (cursor st) (request (cursor st)) (world st)
  = ((page, None), world st) /\
  hasNext (cursor st) page (world st) = (lastID page, world st).
Proof.
  intros Hh Hf Hr Hn page. rewrite Hh, Hf, Hr. simpl.
  now rewrite MockAPIHandler_seq.
Qed.

Lemma manual_walk (n : nat) :
  forall (m a : nat) (st : state0),
    a + m = n ->
    hasNext (cursor st) = HasNext (simpleIterator n) ->
    fetchNext (cursor st) = FetchNext (simpleIterator n) ->
    request (cursor st) = a ->
    next (cursor st) = true ->
    exists xs st',
      Gets (S (Nat.div2 (S m))) st = (xs, st') /\
      concat (map fst xs) = seq (S a) m /\
      Forall (fun x => snd x = None) xs /\
      length xs = S (Nat.div2 (S m)) /\
      next (cursor st') = false /\
      response (cursor st') = [].
Proof.
  intros m. induction m as [m IH] using lt_wf_ind.
  intros a st Ham Hh Hf Hr Hn.
  destruct (@simpleIterator_Get n a st Hh Hf Hr Hn) as [Hfetch Hcheck].
  replace (n - a) with m in Hfetch, Hcheck by lia.
  destruct m as [| [| m]].
  - (* nothing left: the empty page, which is the last *)
    simpl in Hfetch, Hcheck.
    pose proof (Get_fetched st Hn Hfetch Hcheck) as HG.
    eexists. eexists. split.
    + cbn [Nat.div2 Gets]. rewrite (bind_run _ _ HG). reflexivity.
    + simpl. repeat split; repeat constructor.
  - (* one record left, then the empty page *)
    simpl in Hfetch, Hcheck.
    pose proof (Get_fetched st Hn Hfetch Hcheck) as HG.
    assert (Hlt : 0 < 1) by lia.
    assert (Ha : S a + 0 = n) by lia.
    match type of HG with _ = (_, ?s) =>
      destruct (IH 0 Hlt (S a) s Ha Hh Hf eq_refl eq_refl)
        as (xs & st' & HGs & Hcat & Hnil & Hlen & Hn' & Hresp) end.
    exists (([S a], None) :: xs), st'. split.
    + replace (Nat.div2 2) with (S (Nat.div2 1)) by reflexivity.
      cbn [Gets]. rewrite (bind_run _ _ HG), (bind_run _ _ HGs).
      reflexivity.
    + simpl. rewrite Hcat. simpl in Hlen. rewrite Hlen.
      repeat split; try assumption. now constructor.
  - (* two records or more: a full page, and on *)
    change (Nat.min 2 (S (S m))) with 2 in Hfetch, Hcheck.
    rewrite (lastID_seq a 1) in Hcheck.
    pose proof (Get_fetched st Hn Hfetch Hcheck) as HG.
    assert (Hlt : m < S (S m)) by lia.
    assert (Ha : S a + 1 + m = n) by lia.
    match type of HG with _ = (_, ?s) =>
      destruct (IH m Hlt (S a + 1) s Ha Hh Hf eq_refl eq_refl)
        as (xs & st' & HGs & Hcat & Hnil & Hlen & Hn' & Hresp) end.
    exists ((seq (S a) 2, None) :: xs), st'. split.
    + replace (Nat.div2 (S (S (S m)))) with (S (Nat.div2 (S m)))
        by reflexivity.
      cbn [Gets]. rewrite (bind_run _ _ HG), (bind_run _ _ HGs).
      reflexivity.
    + cbn [map fst concat length]. rewrite Hcat, Hlen.
      replace (S (S a + 1)) with (S (S (S a))) by lia.
      repeat split; try assumption. now constructor.
Qed.

(** X11.  Manual iteration over the mock server, for any number [n] of
    records: on a fresh cursor of [simpleIterator], [(n + 1) / 2 + 1]
    calls of [Get] all succeed, their pages put end to end are the records
    [1 .. n] in order, and the cursor is then exhausted with the empty
    page stored, so that one more [Get] returns the empty page with
    [ErrStop]. *)
Theorem manual_iteration_visits_every_record (n w : nat) :
  let run := Gets (S (Nat.div2 (S n))) (start (simpleIterator n) w) in
  concat (map fst (fst run)) = seq 1 n /\
  Forall (fun x => snd x = None) (fst run) /\
  next (cursor (snd run)) = false /\
  fst (Get (snd run)) = ([], Some ErrStop).
Proof.
  intros run. subst run.
  destruct (@manual_walk n n 0 (start (simpleIterator n) w))
    as (xs & st' & HGs & Hcat & Hnil & _ & Hn & Hresp);
    try reflexivity.
  rewrite HGs. simpl. repeat split; try assumption.
  rewrite (Get_exhausted st' Hn). simpl. now rewrite Hresp.
Qed.

Lemma driven_walk (n : nat) (callback : list Record -> Closure nat goerror) :
  (forall r w, fst (callback r w) = None) ->
  forall (m a : nat) (st : state0) (fuel : nat),
    a + m = n ->
    hasNext (cursor st) = HasNext (simpleIterator n) ->
    fetchNext (cursor st) = FetchNext (simpleIterator n) ->
    request (cursor st) = a ->
    next (cursor st) = true ->
    S (S (Nat.div2 (S m))) <= fuel ->
    exists pages st',
      Iterate fuel callback st = (Returned None, st') /\
      delivered (calls st') = delivered (calls st) ++ pages /\
      concat pages = seq (S a) m /\
      length pages = S (Nat.div2 (S m)) /\
      last pages [0] = [] /\
      next (cursor st') = false.
Proof.
  intros Hcb m. induction m as [m IH] using lt_wf_ind.
  intros a st fuel Ham Hh Hf Hr Hn Hfuel.
  destruct (@simpleIterator_Get n a st Hh Hf Hr Hn) as [Hfetch Hcheck].
  replace (n - a) with m in Hfetch, Hcheck by lia.
  destruct fuel as [| fuel]; [inversion Hfuel |].
  destruct m as [| [| m]].
  - simpl in Hfetch, Hcheck.
    destruct (callback [] (world st)) as [cerr w3] eqn:Hc.
    pose proof (Hcb [] (world st)) as Hnil. rewrite Hc in Hnil.
    simpl in Hnil. subst cerr.
    rewrite (Iterate_round fuel callback st Hn Hfetch Hcheck Hc).
    destruct fuel as [| fuel]; [simpl in Hfuel; lia |].
    rewrite Iterate_exhausted by reflexivity.
    exists [[]]. eexists. split; [reflexivity |].
    simpl. rewrite delivered_app. simpl. repeat split.
  - simpl in Hfetch, Hcheck.
    destruct (callback [S a] (world st)) as [cerr w3] eqn:Hc.
    pose proof (Hcb [S a] (world st)) as Hnil. rewrite Hc in Hnil.
    simpl in Hnil. subst cerr.
    rewrite (Iterate_round fuel callback st Hn Hfetch Hcheck Hc).
    assert (Hlt : 0 < 1) by lia.
    assert (Ha : S a + 0 = n) by lia.
    destruct (IH 0 Hlt (S a) (after_round st [S a] (S a) true w3) fuel
                Ha Hh Hf eq_refl eq_refl)
      as (pages & st' & HI & Hd & Hcat & Hlen & Hlast & Hn');
      [simpl in Hfuel |- *; lia |].
    exists ([S a] :: pages), st'. split; [exact HI |].
    rewrite Hd. simpl. rewrite delivered_app. simpl.
    rewrite <- app_assoc. simpl. rewrite Hcat, Hlen.
    repeat split; try assumption.
    destruct pages; [discriminate | exact Hlast].
  - change (Nat.min 2 (S (S m))) with 2 in Hfetch, Hcheck.
    rewrite (lastID_seq a 1) in Hcheck.
    destruct (callback (seq (S a) 2) (world st)) as [cerr w3] eqn:Hc.
    pose proof (Hcb (seq (S a) 2) (world st)) as Hnil. rewrite Hc in Hnil.
    simpl in Hnil. subst cerr.
    rewrite (Iterate_round fuel callback st Hn Hfetch Hcheck Hc).
    assert (Hlt : m < S (S m)) by lia.
    assert (Ha : S a + 1 + m = n) by lia.
    destruct (IH m Hlt (S a + 1)
                (after_round st (seq (S a) 2) (S a + 1) true w3) fuel
                Ha Hh Hf eq_refl eq_refl)
      as (pages & st' & HI & Hd & Hcat & Hlen & Hlast & Hn');
      [simpl in Hfuel |- *; lia |].
    exists (seq (S a) 2 :: pages), st'. split; [exact HI |].
    rewrite Hd. unfold after_round at 1. cbn [calls].
    rewrite delivered_app. cbn [delivered].
    rewrite <- app_assoc. cbn [app concat length]. rewrite Hcat, Hlen.
    replace (S (S a + 1)) with (S (S (S a))) by lia.
    repeat split; try assumption.
    destruct pages; [discriminate | exact Hlast].
Qed.

(** X12.  Driven iteration over the mock server, for any number [n] of
    records and any callback that returns nil: [Iterate] on a fresh cursor
    of [simpleIterator] returns nil after [(n + 1) / 2 + 1] callbacks; the
    pages delivered, put end to end, are the records [1 .. n] in order,
    and the last page delivered is the empty one. *)
Theorem driven_iteration_delivers_every_record (n w : nat)
  (callback : list Record -> Closure nat goerror) (fuel : nat) :
  (forall r w', fst (callback r w') = None) ->
  S (S (Nat.div2 (S n))) <= fuel ->
  exists st',
    Iterate fuel callback (start (simpleIterator n) w) = (Returned None, st') /\
    concat (delivered (calls st')) = seq 1 n /\
    length (delivered (calls st')) = S (Nat.div2 (S n)) /\
    last (delivered (calls st')) [0] = [] /\
    next (cursor st') = false.
Proof.
  intros Hcb Hfuel.
  destruct (@driven_walk n callback Hcb n 0 (start (simpleIterator n) w) fuel)
    as (pages & st' & HI & Hd & Hcat & Hlen & Hlast & Hn);
    try reflexivity; try assumption.
  exists st'. simpl in Hd. rewrite Hd. repeat split; assumption.
Qed.

(** X13.  Whatever was done with a cursor of [simpleIterator] before, any
    sequence of [Next], [Get], [Iterate] and [Reset] calls, finished or
    not, a [Reset] starts it over: the [(n + 1) / 2 + 1] calls of [Get]
    that follow all succeed and their pages, put end to end, are the
    records [1 .. n] again. *)
Theorem Reset_replays_every_record (n w fuel : nat)
  (cs : list (invocation (list Record) nat)) :
  let used := snd (invoke_all fuel cs (start (simpleIterator n) w)) in
  let run := Gets (S (Nat.div2 (S n))) (snd (Reset used)) in
  concat (map fst (fst run)) = seq 1 n /\
  Forall (fun x => snd x = None) (fst run) /\
  next (cursor (snd run)) = false.
Proof.
  intros used run. subst run.
  destruct (invoke_all_same_closures fuel cs (start (simpleIterator n) w))
    as (Hh & Hf & Hg).
  fold used in Hh, Hf, Hg. simpl in Hh, Hf, Hg.
  assert (HR : Reset used
               = (tt, {| cursor := set_next true (set_request 0 (cursor used));
                         world := world used;
                         calls := calls used ++ [EvGetFirstRequest] |})).
  { unfold Reset, bind, self, assign, call, ret. rewrite Hg. reflexivity. }
  rewrite HR. cbn [snd].
  match goal with |- context [Gets _ ?s] =>
    destruct (@manual_walk n n 0 s)
      as (xs & st' & HGs & Hcat & Hnil & _ & Hn & _)
  end; try reflexivity; try assumption.
  rewrite HGs. cbn [fst snd]. repeat split; assumption.
Qed.

End TestServer.

(* ================================================================== *)
(** * The further properties at work *)
(* ================================================================== *)

Section FurtherInstances.

Import Example.

Local Abbreviation state0 := (state nat (list Record) nat).

(** [shortPage] over five records, two pages in: the third page, [[5]], is
    the last, and comes back with [ErrStop] from then on. *)
Lemma terminal_page_witness :
  let st : state0 := snd (Gets 2 (start (shortPage 5) 0)) in
  fst (Gets 3 st)
  = [([5], None); ([5], Some ErrStop); ([5], Some ErrStop)].
Proof.
  intros st.
  destruct (@terminal_page_is_repeated_after_exhaustion _ _ _
              st [5] 0 5 0 2) as [H _];
    [reflexivity | reflexivity | reflexivity |].
  exact H.
Defined.

(** The error [brokenIterator] makes [Iterate] return is not the
    sentinel. *)
Lemma Iterate_never_returns_ErrStop_witness :
  errors.Is nope ErrStop = false.
Proof.
  apply (@Iterate_never_returns_ErrStop _ _ _ 1 (scripted [])
           (start brokenIterator 0) nope).
  reflexivity.
Defined.

(** [flaky] under [Iterate]: one page delivered, then status 500 comes
    out, and the cursor still asks for what follows record 2. *)
Lemma Iterate_fetch_error_witness :
  exists st' : state0,
    Iterate 2 (scripted []) (start flaky 0) = (Returned (Some status500), st') /\
    delivered (calls st') = [[1; 2]] /\
    request (cursor st') = 2 /\
    fetched (calls (snd (Get st'))) = [0; 2; 2].
Proof.
  destruct (@Iterate_fetch_error_leaves_cursor_in_place _ _ _
              (scripted []) [[1; 2]] (start flaky 0) (one_page_in flaky)
              [] status500 1 2)
    as (st' & HI & Hd & _ & Hr & Hf);
    [reflexivity
    | eapply served_cons; [reflexivity | reflexivity | reflexivity
                          | apply served_nil]
    | reflexivity | reflexivity | simpl; lia |].
  exists st'. repeat split; assumption.
Defined.

(** The callback stops on the second page of [simpleIterator]: the next
    [Get] asks for what follows record 4. *)
Lemma Iterate_stopped_witness :
  let st' : state0 :=
    snd (Iterate 2 (scripted [None; Some ErrStop])
           (start (simpleIterator 5) 0)) in
  request (cursor st') = 4 /\ next (cursor st') = true.
Proof.
  intros st'.
  destruct (@Iterate_stopped_by_callback_has_consumed_page _ _ _
              (scripted [None; Some ErrStop]) [[1; 2]]
              (start (simpleIterator 5) 0) (one_page_in (simpleIterator 5))
              [3; 4] 1 4 true 1 ErrStop 2 2)
    as (_ & Hr & Hn & _);
    [reflexivity
    | eapply served_cons; [reflexivity | reflexivity | reflexivity
                          | apply served_nil]
    | reflexivity | reflexivity | reflexivity | simpl; lia |].
  split; assumption.
Defined.

(** [Iterate] over [endless] is still going after three turns. *)
Lemma Iterate_endless_witness :
  fst (Iterate 3 (scripted []) (start endless 0)) = OutOfFuel /\
  length (delivered (calls (snd (Iterate 3 (scripted [])
                                   (start endless 0))))) = 3.
Proof.
  apply (@Iterate_does_not_return_while_pages_keep_coming _ _ _
           (scripted []) (start endless 0) 3).
  - reflexivity.
  - intros rq w. reflexivity.
  - intros r w. reflexivity.
  - intros r w. unfold scripted. simpl. now destruct w.
Defined.

(** The test's five records under a callback that accepts every page. *)
Lemma driven_iteration_witness :
  exists st' : state0,
    Iterate 5 (scripted []) (start (simpleIterator 5) 0)
    = (Returned None, st') /\
    concat (delivered (calls st')) = [1; 2; 3; 4; 5] /\
    length (delivered (calls st')) = 4.
Proof.
  destruct (@driven_iteration_delivers_every_record 5 0 (scripted []) 5)
    as (st' & HI & Hc & Hl & _);
    [intros r w; unfold scripted; simpl; now destruct w | simpl; lia |].
  exists st'. repeat split; assumption.
Defined.

End FurtherInstances.
